(** * The markdown table parser of [blueprints.py]

    A shallow embedding of [markdown_table_to_csv] (src/blueprints.py, lines
    10-56) and of the string methods it calls, and of the handler of the
    Send button (lines 61-140), followed by the properties that the
    specification states about the parser and by further properties of the
    parser and of the handler.

    Python strings are sequences of Unicode code points; a character is
    modelled by its code point, a string by the list of its characters.
    Exceptions are modelled by an error result. *)

From Stdlib Require Import String Ascii.
From Stdlib Require Import List Arith NArith ZArith Bool Lia.
From Equations Require Import Equations.
Import ListNotations.

(** ** Characters and strings *)

Module Py.

Definition char := N.
Definition str := list char.

(** The literal [s] of the source as a Python string. *)
Definition lit (s : string) : str := map N_of_ascii (list_ascii_of_string s).

Definition pipe : char := 124%N.
Definition dash : char := 45%N.
Definition space : char := 32%N.
Definition newline : char := 10%N.

(** The characters [str.strip()], [str.rstrip()] treat as whitespace
    (CPython's [Py_UNICODE_ISSPACE]). *)
Definition isspace (c : char) : bool :=
  ((9 <=? c) && (c <=? 13) || (28 <=? c) && (c <=? 32)
   || (c =? 133) || (c =? 160) || (c =? 5760)
   || (8192 <=? c) && (c <=? 8202)
   || (c =? 8232) || (c =? 8233) || (c =? 8239) || (c =? 8287)
   || (c =? 12288))%N.

Section Strip.
(** [strip], [lstrip] and [rstrip] for a set of characters given by its
    membership test [p]. *)
Variable p : char -> bool.

Fixpoint lstrip_by (s : str) : str :=
  match s with
  | [] => []
  | c :: t => if p c then lstrip_by t else s
  end.

Fixpoint rstrip_by (s : str) : str :=
  match s with
  | [] => []
  | c :: t =>
      match rstrip_by t with
      | [] => if p c then [] else [c]
      | r => c :: r
      end
  end.

Definition strip_by (s : str) : str := rstrip_by (lstrip_by s).
End Strip.

(** [s.rstrip()], [s.strip()] and [s.strip(chars)]. *)
Definition rstrip (s : str) : str := rstrip_by isspace s.
Definition strip (s : str) : str := strip_by isspace s.
Definition strip_chars (chars : str) (s : str) : str :=
  strip_by (fun c => existsb (N.eqb c) chars) s.

(** [s.split(sep)] for a one-character separator: never the empty list. *)
Fixpoint split (sep : char) (s : str) : list str :=
  match s with
  | [] => [[]]
  | c :: t =>
      if (c =? sep)%N then [] :: split sep t
      else match split sep t with
           | [] => [[c]]
           | w :: ws => (c :: w) :: ws
           end
  end.

(** [sep.join(ls)]. *)
Fixpoint join (sep : char) (ls : list str) : str :=
  match ls with
  | [] => []
  | [l] => l
  | l :: rest => l ++ sep :: join sep rest
  end.

(** [s.startswith(c)] for a one-character prefix. *)
Definition startswith (s : str) (c : char) : bool :=
  match s with
  | [] => false
  | d :: _ => (d =? c)%N
  end.

(** [s.replace(c, '')]: every occurrence of [c] is removed. *)
Definition replace_empty (s : str) (c : char) : str :=
  filter (fun d => negb (d =? c)%N) s.

(** [set(s)], a set of characters given by its elements, and
    [a.issubset(b)]. *)
Definition set (s : str) : list char := nodup N.eq_dec s.
Definition issubset (a b : list char) : bool :=
  forallb (fun c => existsb (N.eqb c) b) a.

(** Exceptions the function and the calls inside it can raise.  A
    [UnicodeEncodeError] is a [ValueError] by its class; the text of its
    message is not modelled. *)
Inductive exn : Type :=
| ValueError (msg : string)
| IndexError
| UnicodeEncodeError.

Inductive result (A : Type) : Type :=
| Ok (a : A)
| Raise (e : exn).
Arguments Ok {A} a.
Arguments Raise {A} e.

Definition bind {A B} (m : result A) (k : A -> result B) : result B :=
  match m with
  | Ok a => k a
  | Raise e => Raise e
  end.

(** [l[i]] for a non-negative index. *)
Definition index {A} (l : list A) (i : nat) : result A :=
  match nth_error l i with
  | Some a => Ok a
  | None => Raise IndexError
  end.

End Py.

Import Py.

Notation "x <- m ;; k" := (bind m (fun x => k))
  (at level 61, m at next level, right associativity).

(** ** The data frame the parser returns *)

Record DataFrame : Type := mkDataFrame {
  columns : list str;
  rows : list (list str)
}.

(** [pd.DataFrame(data, columns=cols)] on a list of rows.  pandas is a
    library outside the repository: the constructor is taken to accept the
    rows when each has one cell per column name, and to raise its shape
    [ValueError] otherwise.  This is the constructor that keeps the cells
    as Python objects and does not look into them; [pd_DataFrame_arrow]
    below is the one that stores them as UTF-8 text. *)
Definition pd_DataFrame (data : list (list str)) (cols : list str)
  : result DataFrame :=
  if forallb (fun r => length r =? length cols) data
  then Ok (mkDataFrame cols data)
  else Raise (ValueError "columns passed, passed data had a different number of columns").

(** ** [split_row] *)

Definition NA : str := lit "N/A".

(** The loop [while len(cells) < expected_cols: cells.append('N/A')]. *)
Equations? pad_loop (cells : list str) (expected_cols : nat) : list str
  by wf (expected_cols - length cells) lt :=
  pad_loop cells expected_cols with lt_dec (length cells) expected_cols => {
    | left _ := pad_loop (cells ++ [NA]) expected_cols;
    | right _ := cells }.
Proof. rewrite length_app. simpl. lia. Qed.

Definition split_row (row : str) (expected_cols : nat) : list str :=
  let row := strip_chars [pipe] row in
  let cells := map strip (split pipe row) in
  let cells := pad_loop cells expected_cols in
  firstn expected_cols cells.

(** The cells of a row before padding and truncation: the value of [cells]
    after line 29. *)
Definition cells_of (row : str) : list str :=
  map strip (split pipe (strip_chars [pipe] row)).

(** ** [markdown_table_to_csv] *)

Definition expected_columns : list str :=
  [lit "Item Description"; lit "Quantity"; lit "Unit"].

Definition MalformedTableError : exn :=
  ValueError "Could not find a valid markdown table in the provided text.".
Definition EmptyTableError : exn :=
  ValueError "No valid data rows were found in the table.".

(** Lines 21-22: the stripped lines that start with a pipe. *)
Definition table_lines_of (markdown_text : str) : list str :=
  let lines := map rstrip (split newline markdown_text) in
  map strip (filter (fun line => startswith (strip line) pipe) lines).

(** Lines 42-46. *)
Definition data_start_idx_of (table_lines : list str) : result nat :=
  if 1 <? length table_lines then
    l1 <- index table_lines 1 ;;
    let dash_chars := set (replace_empty (replace_empty l1 pipe) space) in
    if issubset dash_chars [dash] then Ok 2 else Ok 1
  else Ok 1.

(** Lines 24-56, on the table lines. *)
Definition parse_table_lines (table_lines : list str) : result DataFrame :=
  if length table_lines <? 2 then Raise MalformedTableError
  else
    l0 <- index table_lines 0 ;;
    let header := split_row l0 3 in
    let header :=
      if length header <? 3
      then firstn (length header) expected_columns
           ++ repeat (lit "Unit") (3 - length header)
      else header in
    data_start_idx <- data_start_idx_of table_lines ;;
    let data_rows :=
      map (fun row => split_row row (length header))
          (skipn data_start_idx table_lines) in
    match data_rows with
    | [] => Raise EmptyTableError
    | _ => pd_DataFrame data_rows expected_columns
    end.

Definition markdown_table_to_csv (markdown_text : str) : result DataFrame :=
  parse_table_lines (table_lines_of markdown_text).

(** *** The function for any constructor of the data frame

    What [pd.DataFrame] of line 56 does with the rows is decided by pandas
    and its version.  [markdown_table_to_csv_with frame] is lines 10-56
    with the constructor [frame] in the place of [pd.DataFrame]. *)
Section Frame.
Variable frame : list (list str) -> list str -> result DataFrame.

Definition parse_table_lines_with (table_lines : list str)
  : result DataFrame :=
  if length table_lines <? 2 then Raise MalformedTableError
  else
    l0 <- index table_lines 0 ;;
    let header := split_row l0 3 in
    let header :=
      if length header <? 3
      then firstn (length header) expected_columns
           ++ repeat (lit "Unit") (3 - length header)
      else header in
    data_start_idx <- data_start_idx_of table_lines ;;
    let data_rows :=
      map (fun row => split_row row (length header))
          (skipn data_start_idx table_lines) in
    match data_rows with
    | [] => Raise EmptyTableError
    | _ => frame data_rows expected_columns
    end.

Definition markdown_table_to_csv_with (markdown_text : str)
  : result DataFrame :=
  parse_table_lines_with (table_lines_of markdown_text).
End Frame.

(** A code point of a surrogate, which no UTF-8 text can hold. *)
Definition is_surrogate (c : char) : bool :=
  ((55296 <=? c) && (c <=? 57343))%N.

(** [pd.DataFrame(data, columns=cols)] of a pandas that stores strings as
    UTF-8 text (Arrow-backed strings, the default from pandas 3): after
    the check of the shape, a cell or a column name that holds a surrogate
    makes the conversion raise [UnicodeEncodeError]. *)
Definition pd_DataFrame_arrow (data : list (list str)) (cols : list str)
  : result DataFrame :=
  if forallb (fun r => length r =? length cols) data
  then
    if forallb (forallb (forallb (fun c => negb (is_surrogate c))))
         (cols :: data)
    then Ok (mkDataFrame cols data)
    else Raise UnicodeEncodeError
  else Raise (ValueError "columns passed, passed data had a different number of columns").

(** *** [split_row] for an integer number of columns

    [expected_cols] is a Python integer.  [l[:k]] counts a negative [k]
    from the end of the list, and the loop, which pads while
    [len(cells) < expected_cols], does nothing for a negative
    [expected_cols]. *)
Definition slice_to {A} (l : list A) (k : Z) : list A :=
  if (k <? 0)%Z then firstn (length l - Z.to_nat (- k)) l
  else firstn (Z.to_nat k) l.

Definition split_row_int (row : str) (expected_cols : Z) : list str :=
  let row := strip_chars [pipe] row in
  let cells := map strip (split pipe row) in
  let cells := pad_loop cells (Z.to_nat expected_cols) in
  slice_to cells expected_cols.

(** Lines joined by newlines, as the text of an input. *)
Definition text (ls : list string) : str := join newline (map lit ls).


(** ** The rest of the script: the handler of the Send button

    Lines 61-140.  What the script gets from outside (the case tables of
    Unicode, base64, the chat completion and the CSV writer of pandas) is a
    variable of the section. *)

Definition dot : char := 46%N.
Definition carriage_return : char := 13%N.

(** [sep.join(ls)] for a separator of any length. *)
Fixpoint join_str (sep : str) (ls : list str) : str :=
  match ls with
  | [] => []
  | [l] => l
  | l :: rest => l ++ sep ++ join_str sep rest
  end.

(** [c.lower()] for a character of ASCII. *)
Definition ascii_lower (c : char) : char :=
  if ((65 <=? c) && (c <=? 90))%N then (c + 32)%N else c.

Definition is_ascii (c : char) : bool := (c <? 128)%N.

(** [x in l] for strings. *)
Definition str_in (x : str) (l : list str) : bool :=
  if in_dec (list_eq_dec N.eq_dec) x l then true else false.

(** Lines 73-86, the text of the request. *)
Definition prompt : str :=
  lit "Analyze the provided engineering drawing and extract a take-off of quantities for materials or components shown. "
  ++ lit "Return the results ONLY as a markdown table with exactly three columns: 'Item Description', 'Quantity', and 'Unit'. "
  ++ lit "Do not include any additional text, explanations, or incomplete rows. "
  ++ lit "For each item, assign an appropriate unit based on the context of the drawing (e.g., 'pcs' for bolts, 'm' for beams, 'set' for assemblies, 'm" ++ [178%N] ++ lit "' for walls). "
  ++ lit "If units are not explicitly specified in the drawing, infer them logically based on the item type. "
  ++ lit "Ensure every row has a valid unit. "
  ++ lit "Example:" ++ [newline]
  ++ lit "| Item Description        | Quantity | Unit |" ++ [newline]
  ++ lit "|------------------------|----------|------|" ++ [newline]
  ++ lit "| Concrete Beam          | 5        | m    |" ++ [newline]
  ++ lit "| M12 Bolts              | 10       | pcs  |" ++ [newline]
  ++ lit "| Steel Plate            | 2        | set  |" ++ [newline]
  ++ lit "| Block Wall             | 20       | m" ++ [178%N] ++ lit "   |".

(** An uploaded file: [img.name] and the bytes [img.read()] returns. *)
Record UploadedFile : Type := mkUploadedFile {
  name : str;
  data : list N
}.

(** The items of [msg['content']]: [{'type': 'text', 'text': ...}] and
    [{'type': 'image_url', 'image_url': {'url': ..., 'detail': ...}}]. *)
Inductive content_item : Type :=
| TextItem (body : str)
| ImageUrlItem (url detail : str).

Record message : Type := mkMessage {
  role : str;
  content : list content_item
}.

(** A part of the script that goes on with a value, or shows a warning and
    calls [st.stop()]. *)
Inductive step (A : Type) : Type :=
| Continue (a : A)
| Stop (warning : str).
Arguments Continue {A} a.
Arguments Stop {A} warning.

(** What the script puts on the page. *)
#[local] Unset Elimination Schemes.
Inductive ui : Type :=
| StWarning (body : str)
| StWrite (body : str)
| StMarkdown (body : str)
| StError (body : str)
| StImage (image : list N)
| StDownloadButton (label : str) (csv : list N) (file_name mime : str)
| StChatMessage (who : str) (inside : list ui)
| StExpander (label : str) (inside : list ui).
#[local] Set Elimination Schemes.

(** How a run ends: at the end of the script, at [st.stop()], with an
    exception of the parser that nothing catches, or with the exception of
    a library call that stands outside the [try] (the client of the API,
    the opening of an image). *)
Inductive finish : Type :=
| Completed
| Stopped
| Uncaught (e : exn)
| Crashed (what : string).

Record run : Type := mkRun {
  shown : list ui;
  ending : finish
}.

Section Script.
(** [s.lower()] for a string with a character outside ASCII. *)
Variable unicode_lower : str -> str.
(** [base64.b64encode(b).decode('utf-8')]. *)
Variable b64encode : list N -> str.
(** [Image.open(BytesIO(base64.b64decode(s)))] and [st.image] of lines
    121-122 on a base64 text [s]: the image shown, or the exception one of
    the calls raises (a text that is no base64, bytes that are no
    image). *)
Variable open_image : str -> list N + string.
(** [OpenAI(api_key=...)] and
    [str(client.chat.completions.create(...).choices[0].message.content)]
    of lines 102-109, for an API key and the one message of the request:
    the text of the response, or the exception the client raises. *)
Variable chat_completion : str -> message -> str + string.
(** [pd.DataFrame] of line 56. *)
Variable frame : list (list str) -> list str -> result DataFrame.
(** [df.to_csv(index=False).encode('utf-8')]: the bytes, or the message of
    the [UnicodeEncodeError], a [ValueError], that [encode] raises on a
    character UTF-8 cannot encode. *)
Variable to_csv : DataFrame -> list N + string.
(** [str(e)] for a [UnicodeEncodeError] that the constructor of the data
    frame raises on a response. *)
Variable encode_error_text : str -> str.

Definition lower (s : str) : str :=
  if forallb is_ascii s then map ascii_lower s else unicode_lower s.

(** Line 90: [img.name.split('.')[-1].lower() not in [...]]; the list
    [split] returns always has a last element. *)
Definition unsupported (img_name : str) : bool :=
  negb (str_in (lower (last (split dot img_name) []))
          [lit "png"; lit "jpg"; lit "jpeg"; lit "gif"; lit "webp"]).

(** Lines 89-101, the loop over the uploaded files. *)
Fixpoint add_images (img_input images : list UploadedFile)
    (content : list content_item)
  : step (list UploadedFile * list content_item) :=
  match img_input with
  | [] => Continue (images, content)
  | img :: rest =>
      if unsupported (name img)
      then Stop (lit "Only .jpg, .png, .gif, or .webp are supported")
      else
        let encoded_img := b64encode (data img) in
        add_images rest (images ++ [img])
          (content
           ++ [ImageUrlItem (lit "data:image/jpeg;base64," ++ encoded_img)
                 (lit "high")])
  end.

(** Lines 66-101: the check of the API key and the message. *)
Definition build_message (api_key : str) (img_input : list UploadedFile)
  : step (list UploadedFile * message) :=
  match api_key with
  | [] => Stop (lit "API Key required")
  | _ =>
      match add_images img_input [] [TextItem prompt] with
      | Continue (images, content) =>
          Continue (images, mkMessage (lit "user") content)
      | Stop warning => Stop warning
      end
  end.

(** Lines 116-122: the loop over the content, which ends at the first
    image that does not open, inside the expander just made. *)
Fixpoint echo (content : list content_item) : list ui * option string :=
  match content with
  | [] => ([], None)
  | TextItem body :: rest =>
      let (page, raised) := echo rest in (StWrite body :: page, raised)
  | ImageUrlItem url _ :: rest =>
      match open_image (skipn 23 url) with
      | inl img =>
          let (page, raised) := echo rest in
          (StExpander (lit "Attached Image") [StImage img] :: page, raised)
      | inr e => ([StExpander (lit "Attached Image") []], Some e)
      end
  end.

(** Lines 124-140, inside [st.chat_message('assistant')]:
    [except ValueError] catches a [ValueError] and a
    [UnicodeEncodeError]. *)
Definition show_response (response_msg : str) : list ui * finish :=
  let tried :=
    df <- markdown_table_to_csv_with frame response_msg ;;
    match to_csv df with
    | inl csv => Ok csv
    | inr e => Raise (ValueError e)
    end in
  let failed := fun e : str =>
    ([StMarkdown response_msg;
      StError (lit "B" ++ [322%N] ++ [261%N]
               ++ lit "d podczas parsowania tabeli: " ++ e);
      StMarkdown (lit "Odpowied" ++ [378%N] ++ lit " z API:");
      StMarkdown response_msg],
     Stopped) in
  match tried with
  | Ok csv =>
      ([StMarkdown response_msg;
        StDownloadButton (lit "Download table as CSV") csv
          (lit "table.csv") (lit "text/csv")],
       Completed)
  | Raise (ValueError e) => failed (lit e)
  | Raise UnicodeEncodeError => failed (encode_error_text response_msg)
  | Raise e => ([StMarkdown response_msg], Uncaught e)
  end.

(** Lines 65-140. *)
Definition on_send (api_key : str) (img_input : list UploadedFile) : run :=
  match build_message api_key img_input with
  | Stop warning => mkRun [StWarning warning] Stopped
  | Continue (_, msg) =>
      match chat_completion api_key msg with
      | inr e => mkRun [] (Crashed e)
      | inl response_msg =>
          let raw :=
            [StWrite (lit "Surowa odpowied" ++ [378%N] ++ lit " z API:");
             StWrite response_msg] in
          match echo (content msg) with
          | (echoed, Some e) =>
              mkRun (raw ++ [StChatMessage (lit "user") echoed]) (Crashed e)
          | (echoed, None) =>
              let page := raw ++ [StChatMessage (lit "user") echoed] in
              match response_msg with
              | [] => mkRun page Completed
              | _ =>
                  let (inside, ending) := show_response response_msg in
                  mkRun (page ++ [StChatMessage (lit "assistant") inside])
                    ending
              end
          end
      end
  end.
End Script.

(** ** The wording of the specification *)

(** A line whose first character that is not whitespace is a pipe. *)
Definition pipe_leading (line : str) : bool :=
  match find (fun c => negb (isspace c)) line with
  | Some c => (c =? pipe)%N
  | None => false
  end.

(** The pipe-leading lines of an input, as they stand in it. *)
Definition pipe_lines (markdown_text : str) : list str :=
  filter pipe_leading (split newline markdown_text).

(** After removing every pipe and every space, only dashes remain. *)
Definition dash_only (line : str) : bool :=
  forallb (fun c => (c =? dash)%N)
    (filter (fun c => negb (c =? pipe)%N && negb (c =? space)%N) line).

(** [s.endswith(c)] for a one-character suffix. *)
Definition endswith (s : str) (c : char) : bool := startswith (rev s) c.

(** The rule of the specification for a row: one leading and one trailing
    pipe are removed, the rest is split on pipes and each piece trimmed. *)
Definition strip_one_pipe (row : str) : str :=
  let row := if startswith row pipe then tl row else row in
  if endswith row pipe then removelast row else row.

Definition cells_one_pipe (row : str) : list str :=
  map strip (split pipe (strip_one_pipe row)).

(** Membership in the character set of [strip('|')]. *)
Definition is_pipe (c : char) : bool := existsb (N.eqb c) [pipe].

(** ** The parser in closed form

    What lines 24-56 come to on table lines [l0 :: l1 :: rest]
    ([parse_table_lines_cons] below proves it). *)
Definition outcome (l1 : str) (rest : list str) : result DataFrame :=
  let normalize := fun row => split_row row 3 in
  if dash_only l1 then
    match rest with
    | [] => Raise EmptyTableError
    | _ => Ok (mkDataFrame expected_columns (map normalize rest))
    end
  else Ok (mkDataFrame expected_columns (map normalize (l1 :: rest))).

(** ** Lemmas on the string methods *)

Section StripLemmas.
Variable p : char -> bool.

Lemma rstrip_by_keep c t :
  p c = false -> rstrip_by p (c :: t) = c :: rstrip_by p t.
Proof.
  intros Hc. simpl. rewrite Hc. destruct (rstrip_by p t); reflexivity.
Qed.

Lemma rstrip_by_idem s : rstrip_by p (rstrip_by p s) = rstrip_by p s.
Proof.
  induction s as [|c t IH]; [reflexivity|].
  simpl. destruct (rstrip_by p t) as [|d r] eqn:E.
  - destruct (p c) eqn:Hc; [reflexivity|]. simpl. now rewrite Hc.
  - change (rstrip_by p (c :: d :: r)) with
      (match rstrip_by p (d :: r) with
       | [] => if p c then [] else [c]
       | x :: y => c :: x :: y
       end).
    rewrite IH. reflexivity.
Qed.

Lemma lstrip_rstrip_by s :
  lstrip_by p (rstrip_by p s) = rstrip_by p (lstrip_by p s).
Proof.
  induction s as [|c t IH]; [reflexivity|].
  destruct (p c) eqn:Hc.
  - replace (lstrip_by p (c :: t)) with (lstrip_by p t)
      by (simpl; now rewrite Hc).
    rewrite <- IH. simpl.
    destruct (rstrip_by p t) as [|d r]; simpl; now rewrite Hc.
  - rewrite (rstrip_by_keep _ _ Hc). simpl lstrip_by. rewrite Hc.
    symmetry. apply (rstrip_by_keep _ _ Hc).
Qed.

Lemma strip_rstrip_by s : strip_by p (rstrip_by p s) = strip_by p s.
Proof.
  unfold strip_by. now rewrite lstrip_rstrip_by, rstrip_by_idem.
Qed.




Lemma startswith_rstrip_by s c :
  p c = false -> startswith (rstrip_by p s) c = startswith s c.
Proof.
  intros Hc. destruct s as [|d t]; [reflexivity|]. simpl.
  destruct (rstrip_by p t); [|reflexivity].
  destruct (p d) eqn:Hd; [|reflexivity]. simpl.
  symmetry. apply N.eqb_neq. intros ->. congruence.
Qed.

Lemma lstrip_by_app_all pre s :
  forallb p pre = true -> lstrip_by p (pre ++ s) = lstrip_by p s.
Proof.
  induction pre as [|c t IH]; simpl; [reflexivity|].
  intros H. apply andb_true_iff in H as [Hc Ht]. now rewrite Hc, IH.
Qed.

Lemma lstrip_by_none s c : p c = false -> lstrip_by p (c :: s) = c :: s.
Proof. intros Hc. simpl. now rewrite Hc. Qed.

Lemma rstrip_by_snoc_drop s c :
  p c = true -> rstrip_by p (s ++ [c]) = rstrip_by p s.
Proof.
  intros Hc. induction s as [|d t IH]; simpl.
  - now rewrite Hc.
  - now rewrite IH.
Qed.

Lemma rstrip_by_snoc_keep s c :
  p c = false -> rstrip_by p (s ++ [c]) = s ++ [c].
Proof.
  intros Hc. induction s as [|d t IH]; simpl.
  - now rewrite Hc.
  - rewrite IH. destruct (t ++ [c]) eqn:E; [|reflexivity].
    now destruct t.
Qed.

Lemma rstrip_by_app_all s suf :
  forallb p suf = true -> rstrip_by p (s ++ suf) = rstrip_by p s.
Proof.
  revert s. induction suf as [|c t IH]; intros s H.
  - now rewrite app_nil_r.
  - simpl in H. apply andb_true_iff in H as [Hc Ht].
    change (s ++ c :: t) with (s ++ [c] ++ t).
    rewrite app_assoc, (IH _ Ht). now apply rstrip_by_snoc_drop.
Qed.
End StripLemmas.

Section SplitLemmas.
Variable sep : char.

Lemma split_not_nil s : split sep s <> [].
Proof.
  destruct s as [|c t]; simpl; [discriminate|].
  destruct (c =? sep)%N; [discriminate|].
  destruct (split sep t); discriminate.
Qed.

Lemma split_no_sep s : ~ In sep s -> split sep s = [s].
Proof.
  induction s as [|c t IH]; intros H; [reflexivity|]. simpl.
  destruct (N.eqb_spec c sep) as [->|Hne].
  - exfalso. apply H. now left.
  - rewrite IH; [reflexivity|]. intros Hin. apply H. now right.
Qed.

Lemma split_app_sep a b :
  split sep (a ++ sep :: b) = split sep a ++ split sep b.
Proof.
  induction a as [|c t IH]; simpl.
  - now rewrite N.eqb_refl.
  - destruct (c =? sep)%N.
    + now rewrite IH.
    + rewrite IH. destruct (split sep t) as [|w ws] eqn:E.
      * now apply split_not_nil in E.
      * reflexivity.
Qed.

Lemma split_pieces_no_sep s : Forall (fun l => ~ In sep l) (split sep s).
Proof.
  induction s as [|c t IH]; simpl.
  - constructor; [intros [] | constructor].
  - destruct (N.eqb_spec c sep) as [->|Hne].
    + constructor; [intros [] | assumption].
    + destruct (split sep t) as [|w ws]; inversion IH; subst.
      * constructor; [|constructor]. intros [H|[]]. now apply Hne.
      * constructor; [|assumption]. intros [H|H]; [now apply Hne | auto].
Qed.

Lemma split_join_pieces ls :
  ls <> [] -> split sep (join sep ls) = flat_map (split sep) ls.
Proof.
  induction ls as [|l rest IH]; intros H; [congruence|].
  destruct rest as [|l' rest'].
  - simpl. now rewrite app_nil_r.
  - change (join sep (l :: l' :: rest'))
      with (l ++ sep :: join sep (l' :: rest')).
    rewrite split_app_sep, IH by discriminate. reflexivity.
Qed.

Lemma flat_map_split_lines ls :
  Forall (fun l => ~ In sep l) ls -> flat_map (split sep) ls = ls.
Proof.
  induction 1 as [|l rest Hl Hrest IH]; simpl; [reflexivity|].
  now rewrite (split_no_sep _ Hl), IH.
Qed.

Lemma split_join ls :
  ls <> [] -> Forall (fun l => ~ In sep l) ls ->
  split sep (join sep ls) = ls.
Proof.
  intros Hne H. now rewrite split_join_pieces, flat_map_split_lines.
Qed.
End SplitLemmas.

Lemma filter_map_comm {A B} (f : B -> bool) (g : A -> B) l :
  filter f (map g l) = map g (filter (fun a => f (g a)) l).
Proof.
  induction l as [|a t IH]; simpl; [reflexivity|].
  destruct (f (g a)); simpl; now rewrite IH.
Qed.

Lemma filter_all {A} (f : A -> bool) l :
  Forall (fun a => f a = true) l -> filter f l = l.
Proof.
  induction 1 as [|a t Ha Ht IH]; simpl; [reflexivity|].
  now rewrite Ha, IH.
Qed.

Lemma filter_Forall {A} (f : A -> bool) l :
  Forall (fun a => f a = true) (filter f l).
Proof.
  induction l as [|a t IH]; simpl; [constructor|].
  destruct (f a) eqn:E; [now constructor | assumption].
Qed.

(** ** The table lines *)

Lemma isspace_pipe : isspace pipe = false.
Proof. reflexivity. Qed.

Lemma startswith_lstrip line :
  startswith (lstrip_by isspace line) pipe = pipe_leading line.
Proof.
  unfold pipe_leading.
  induction line as [|c t IH]; simpl; [reflexivity|].
  destruct (isspace c); simpl; [assumption | reflexivity].
Qed.

Lemma startswith_strip line : startswith (strip line) pipe = pipe_leading line.
Proof.
  unfold strip, strip_by.
  rewrite startswith_rstrip_by by apply isspace_pipe.
  apply startswith_lstrip.
Qed.

Lemma strip_rstrip line : strip (rstrip line) = strip line.
Proof. apply strip_rstrip_by. Qed.

Lemma table_lines_pipe_lines s : table_lines_of s = map strip (pipe_lines s).
Proof.
  unfold table_lines_of, pipe_lines.
  rewrite filter_map_comm, map_map.
  rewrite (map_ext _ strip) by apply strip_rstrip.
  f_equal. apply filter_ext. intros line.
  now rewrite strip_rstrip, startswith_strip.
Qed.

Lemma pipe_lines_join ls :
  Forall (fun l => ~ In newline l) ls ->
  pipe_lines (join newline ls) = filter pipe_leading ls.
Proof.
  intros H. unfold pipe_lines. destruct ls as [|l rest]; [reflexivity|].
  now rewrite split_join.
Qed.

(** ** [split_row] *)

Lemma pad_loop_spec cells n :
  pad_loop cells n = cells ++ repeat NA (n - length cells).
Proof.
  funelim (pad_loop cells n).
  - match goal with IH : pad_loop _ _ = _ ++ _ |- _ => rewrite IH end.
    rewrite length_app, <- app_assoc. simpl length.
    replace (expected_cols - length cells)
      with (S (expected_cols - (length cells + 1))) by lia.
    reflexivity.
  - replace (expected_cols - length cells) with 0 by lia.
    now rewrite app_nil_r.
Qed.

Lemma split_row_cells row n :
  split_row row n
  = firstn n (cells_of row ++ repeat NA (n - length (cells_of row))).
Proof. unfold split_row. now rewrite pad_loop_spec. Qed.

Lemma split_row_length row n : length (split_row row n) = n.
Proof.
  rewrite split_row_cells, length_firstn, length_app, repeat_length. lia.
Qed.

(** ** The separator test and the parser on its table lines *)

Lemma issubset_dash_only line :
  issubset (set (replace_empty (replace_empty line pipe) space)) [dash]
  = dash_only line.
Proof.
  unfold issubset, set, dash_only, replace_empty.
  apply eq_true_iff_eq. rewrite !forallb_forall. split; intros H c Hc.
  - specialize (H c). simpl in H. rewrite orb_false_r in H. apply H.
    apply nodup_In. apply filter_In in Hc as [Hin Hc].
    apply andb_true_iff in Hc as [H1 H2].
    apply filter_In. split; [|assumption]. apply filter_In. now split.
  - simpl. rewrite orb_false_r. apply H.
    apply nodup_In in Hc. apply filter_In in Hc as [Hc H2].
    apply filter_In in Hc as [Hin H1].
    apply filter_In. split; [assumption|]. now rewrite H1, H2.
Qed.

Lemma data_start_idx_of_cons l0 l1 rest :
  data_start_idx_of (l0 :: l1 :: rest) = Ok (if dash_only l1 then 2 else 1).
Proof.
  unfold data_start_idx_of. simpl. rewrite issubset_dash_only.
  now destruct (dash_only l1).
Qed.

Lemma pd_DataFrame_normalized ls :
  pd_DataFrame (map (fun row => split_row row 3) ls) expected_columns
  = Ok (mkDataFrame expected_columns (map (fun row => split_row row 3) ls)).
Proof.
  unfold pd_DataFrame.
  replace (forallb _ _) with true; [reflexivity|].
  symmetry. apply forallb_forall. intros r Hr.
  apply in_map_iff in Hr as [row [<- _]].
  rewrite split_row_length. reflexivity.
Qed.

Lemma parse_table_lines_cons l0 l1 rest :
  parse_table_lines (l0 :: l1 :: rest) = outcome l1 rest.
Proof.
  unfold parse_table_lines, outcome.
  rewrite data_start_idx_of_cons.
  change (length (l0 :: l1 :: rest) <? 2) with false. cbv iota.
  change (index (l0 :: l1 :: rest) 0) with (Ok l0). cbv beta iota delta [bind].
  rewrite split_row_length. change (3 <? 3) with false. cbv iota.
  rewrite split_row_length.
  destruct (dash_only l1).
  - change (skipn 2 (l0 :: l1 :: rest)) with rest.
    destruct rest as [|r rest']; [reflexivity|].
    rewrite pd_DataFrame_normalized. reflexivity.
  - change (skipn 1 (l0 :: l1 :: rest)) with (l1 :: rest).
    rewrite pd_DataFrame_normalized. reflexivity.
Qed.

Lemma parse_table_lines_short tl :
  length tl < 2 -> parse_table_lines tl = Raise MalformedTableError.
Proof.
  intros H. unfold parse_table_lines.
  apply Nat.ltb_lt in H. now rewrite H.
Qed.


Lemma markdown_table_to_csv_pipe_lines s :
  markdown_table_to_csv s = parse_table_lines (map strip (pipe_lines s)).
Proof.
  unfold markdown_table_to_csv. now rewrite table_lines_pipe_lines.
Qed.

Lemma outcome_cases l1 rest :
  outcome l1 rest = Raise EmptyTableError /\ dash_only l1 = true /\ rest = []
  \/ exists k,
       k <= 1 /\ skipn k (l1 :: rest) <> [] /\
       (k = 1 <-> dash_only l1 = true) /\
       outcome l1 rest
       = Ok (mkDataFrame expected_columns
               (map (fun row => split_row row 3) (skipn k (l1 :: rest)))).
Proof.
  unfold outcome. destruct (dash_only l1) eqn:E.
  - destruct rest as [|r rest'].
    + left. auto.
    + right. exists 1. simpl. repeat split; auto. discriminate.
  - right. exists 0. simpl. repeat split; auto; discriminate.
Qed.

Lemma errors_distinct : MalformedTableError <> EmptyTableError.
Proof. discriminate. Qed.

(** ** The pipes around a row *)

Lemma is_pipe_eqb c : is_pipe c = (c =? pipe)%N.
Proof. unfold is_pipe. simpl. apply orb_false_r. Qed.

Lemma forallb_is_pipe_repeat n : forallb is_pipe (repeat pipe n) = true.
Proof. induction n; simpl; auto. Qed.

Lemma not_endswith_inv core :
  endswith core pipe = false ->
  core = [] \/ exists t d, core = t ++ [d] /\ is_pipe d = false.
Proof.
  unfold endswith. intros H.
  induction core as [|c t _] using rev_ind; [now left|]. right.
  exists t, c. split; [reflexivity|].
  rewrite rev_app_distr in H. simpl in H. now rewrite is_pipe_eqb.
Qed.

Lemma strip_pipes_core a b core :
  startswith core pipe = false -> endswith core pipe = false ->
  strip_chars [pipe] (repeat pipe a ++ core ++ repeat pipe b) = core.
Proof.
  intros Hs He. unfold strip_chars. fold is_pipe. unfold strip_by.
  rewrite lstrip_by_app_all by apply forallb_is_pipe_repeat.
  destruct core as [|c t].
  - simpl. rewrite <- (app_nil_r (repeat pipe b)).
    rewrite lstrip_by_app_all by apply forallb_is_pipe_repeat. reflexivity.
  - simpl in Hs. rewrite <- is_pipe_eqb in Hs.
    change ((c :: t) ++ repeat pipe b) with (c :: t ++ repeat pipe b).
    rewrite lstrip_by_none by assumption.
    change (c :: t ++ repeat pipe b) with ((c :: t) ++ repeat pipe b).
    rewrite rstrip_by_app_all by apply forallb_is_pipe_repeat.
    destruct (not_endswith_inv _ He) as [E | [t' [d [E Hd]]]];
      [discriminate|].
    rewrite E. now apply rstrip_by_snoc_keep.
Qed.

Lemma strip_one_pipe_core a b core :
  startswith core pipe = false -> endswith core pipe = false ->
  a <= 1 -> b <= 1 ->
  strip_one_pipe (repeat pipe a ++ core ++ repeat pipe b) = core.
Proof.
  intros Hs He Ha Hb.
  assert (Htail : (if endswith (core ++ repeat pipe b) pipe
                   then removelast (core ++ repeat pipe b)
                   else core ++ repeat pipe b) = core).
  { destruct b as [|[|b]]; [| |lia].
    - simpl. rewrite app_nil_r, He. reflexivity.
    - simpl. unfold endswith. rewrite rev_app_distr. simpl.
      apply removelast_last. }
  unfold strip_one_pipe. destruct a as [|[|a]]; [| |lia].
  - simpl repeat. simpl app.
    destruct core as [|c t].
    + destruct b as [|[|b]]; [reflexivity|reflexivity|lia].
    + change (startswith ((c :: t) ++ repeat pipe b) pipe)
        with (startswith (c :: t) pipe).
      rewrite Hs. exact Htail.
  - simpl. exact Htail.
Qed.

Lemma lstrip_pipes_decomposition s :
  exists a,
    s = repeat pipe a ++ lstrip_by is_pipe s
    /\ startswith (lstrip_by is_pipe s) pipe = false.
Proof.
  induction s as [|c t [a [E H]]].
  - now exists 0.
  - simpl. destruct (is_pipe c) eqn:Hc.
    + exists (S a). rewrite is_pipe_eqb in Hc. apply N.eqb_eq in Hc.
      subst c. simpl. now rewrite <- E.
    + exists 0. simpl. now rewrite <- is_pipe_eqb.
Qed.

Lemma endswith_cons c l d : l <> [] -> endswith (c :: l) d = endswith l d.
Proof.
  unfold endswith. intros H. simpl.
  destruct (rev l) as [|x y] eqn:E; [|reflexivity].
  apply (f_equal (@rev char)) in E. rewrite rev_involutive in E. contradiction.
Qed.

Lemma rstrip_pipes_decomposition s :
  exists b,
    s = rstrip_by is_pipe s ++ repeat pipe b
    /\ endswith (rstrip_by is_pipe s) pipe = false.
Proof.
  induction s as [|c t [b [E H]]].
  - now exists 0.
  - simpl. destruct (rstrip_by is_pipe t) as [|d r] eqn:Er.
    + destruct (is_pipe c) eqn:Hc.
      * exists (S b). rewrite is_pipe_eqb in Hc. apply N.eqb_eq in Hc.
        subst c. simpl in *. now rewrite <- E.
      * exists b. simpl in *. split; [now rewrite <- E|].
        unfold endswith. simpl. now rewrite <- is_pipe_eqb.
    + exists b. split.
      * simpl. now rewrite E at 1.
      * rewrite endswith_cons by discriminate. assumption.
Qed.

Lemma row_decomposition row :
  exists a b core,
    row = repeat pipe a ++ core ++ repeat pipe b
    /\ startswith core pipe = false /\ endswith core pipe = false.
Proof.
  destruct (lstrip_pipes_decomposition row) as [a [Ea Ha]].
  destruct (rstrip_pipes_decomposition (lstrip_by is_pipe row)) as [b [Eb Hb]].
  exists a, b, (rstrip_by is_pipe (lstrip_by is_pipe row)).
  split; [|split].
  - now rewrite <- Eb.
  - destruct (lstrip_by is_pipe row) as [|c t]; [reflexivity|].
    simpl in Ha. rewrite rstrip_by_keep by now rewrite is_pipe_eqb.
    assumption.
  - assumption.
Qed.

(** * The properties of the specification *)



(** C2, as the specification words it, fails: [strip('|')] removes every
    leading and every trailing pipe, so the row [||A|B|C||] has the cells
    A, B, C, where the rule that removes one pipe at each end gives an
    empty cell, A, B, C and an empty cell. *)
Lemma C2_one_pipe_rule_counterexample :
  cells_of (lit "||A|B|C||") = [lit "A"; lit "B"; lit "C"]
  /\ cells_one_pipe (lit "||A|B|C||")
     = [lit ""; lit "A"; lit "B"; lit "C"; lit ""]
  /\ cells_of (lit "||A|B|C||") <> cells_one_pipe (lit "||A|B|C||")
  /\ markdown_table_to_csv
       (text ["| H | Q | U |"; "|---|---|---|"; "||A|B|C||"]%string)
     = Ok (mkDataFrame expected_columns [[lit "A"; lit "B"; lit "C"]])
  /\ firstn 3 (cells_one_pipe (lit "||A|B|C||")) = [lit ""; lit "A"; lit "B"].
Proof.
  repeat split; try (vm_compute; reflexivity).
  vm_compute. discriminate.
Qed.

(** C2, amended.  A row is some pipes, a core that neither starts nor ends
    with a pipe, and some pipes; its cells are the pieces of the core
    between pipes, each trimmed of whitespace, however many pipes stand at
    either end, and [split_row] pads and truncates these cells.  With at
    most one pipe at each end this is the rule that removes one leading
    and one trailing pipe. *)
Theorem C2_cells_strip_all_pipes (a b : nat) (core : str) :
  startswith core pipe = false ->
  endswith core pipe = false ->
  cells_of (repeat pipe a ++ core ++ repeat pipe b)
  = map strip (split pipe core)
  /\ split_row (repeat pipe a ++ core ++ repeat pipe b) 3
     = firstn 3 (map strip (split pipe core)
                 ++ repeat (lit "N/A") (3 - length (split pipe core)))
  /\ (a <= 1 -> b <= 1 ->
      cells_of (repeat pipe a ++ core ++ repeat pipe b)
      = cells_one_pipe (repeat pipe a ++ core ++ repeat pipe b)).
Proof.
  intros Hs He.
  assert (E : cells_of (repeat pipe a ++ core ++ repeat pipe b)
              = map strip (split pipe core))
    by (unfold cells_of; now rewrite strip_pipes_core).
  split; [exact E|]. split.
  - rewrite split_row_cells, E, length_map. reflexivity.
  - intros Ha Hb. rewrite E. unfold cells_one_pipe.
    now rewrite strip_one_pipe_core.
Qed.

Lemma C2_cells_strip_all_pipes_witness :
  cells_of (lit "||A|B|C||") = map strip (split pipe (lit "A|B|C"))
  /\ split_row (lit "||A|B|C||") 3
     = firstn 3 (map strip (split pipe (lit "A|B|C"))
                 ++ repeat (lit "N/A") (3 - length (split pipe (lit "A|B|C"))))
  /\ (2 <= 1 -> 2 <= 1 ->
      cells_of (lit "||A|B|C||") = cells_one_pipe (lit "||A|B|C||")).
Proof.
  apply (C2_cells_strip_all_pipes 2 2 (lit "A|B|C")).
  - reflexivity.
  - reflexivity.
Defined.

(** C3 (malformed input).  The parser fails with MalformedTableError exactly
    when fewer than 2 lines of the input have a pipe as their first
    character that is not whitespace. *)
Theorem C3_malformed_iff (s : str) :
  markdown_table_to_csv s = Raise MalformedTableError
  <-> length (pipe_lines s) < 2.
Proof.
  rewrite markdown_table_to_csv_pipe_lines.
  split.
  - intros H. destruct (pipe_lines s) as [|l0 [|l1 rest]]; simpl; try lia.
    simpl map in H. rewrite parse_table_lines_cons in H.
    destruct (outcome_cases (strip l1) (map strip rest))
      as [[E _] | [k [_ [_ [_ E]]]]]; rewrite E in H; discriminate.
  - intros H. apply parse_table_lines_short. now rewrite length_map.
Qed.



(** C5 (shape of the result).  Whenever the parser returns a table, every
    row has exactly 3 cells and the column names are Item Description,
    Quantity, Unit, whatever the header line of the input said. *)
Theorem C5_three_cells_fixed_columns (s : str) (df : DataFrame) :
  markdown_table_to_csv s = Ok df ->
  Forall (fun r => length r = 3) (rows df)
  /\ columns df = [lit "Item Description"; lit "Quantity"; lit "Unit"].
Proof.
  rewrite markdown_table_to_csv_pipe_lines. intros H.
  destruct (pipe_lines s) as [|l0 [|l1 rest]];
    try (rewrite parse_table_lines_short in H by (simpl; lia); discriminate).
  simpl map in H. rewrite parse_table_lines_cons in H.
  destruct (outcome_cases (strip l1) (map strip rest))
    as [[E _] | [k [_ [_ [_ E]]]]]; rewrite E in H; [discriminate|].
  injection H as <-. simpl. split; [|reflexivity].
  apply Forall_forall. intros r Hr.
  apply in_map_iff in Hr as [row [<- _]]. apply split_row_length.
Qed.

Lemma C5_three_cells_fixed_columns_witness :
  markdown_table_to_csv
    (text ["| Name | Count |"; "| A | 1 |"; "| B | 2 | pcs | x |"]%string)
  = Ok (mkDataFrame expected_columns
          [[lit "A"; lit "1"; lit "N/A"]; [lit "B"; lit "2"; lit "pcs"]])
  /\ Forall (fun r => length r = 3)
    [[lit "A"; lit "1"; lit "N/A"]; [lit "B"; lit "2"; lit "pcs"]]
  /\ expected_columns = [lit "Item Description"; lit "Quantity"; lit "Unit"].
Proof.
  split; [vm_compute; reflexivity|].
  apply (C5_three_cells_fixed_columns
           (text ["| Name | Count |"; "| A | 1 |"; "| B | 2 | pcs | x |"]%string)
           (mkDataFrame expected_columns
              [[lit "A"; lit "1"; lit "N/A"]; [lit "B"; lit "2"; lit "pcs"]])).
  vm_compute. reflexivity.
Defined.



Lemma split_row_pad row n :
  length (cells_of row) < n ->
  split_row row n
  = cells_of row ++ repeat NA (n - length (cells_of row)).
Proof.
  intros H. rewrite split_row_cells. apply firstn_all2.
  rewrite length_app, repeat_length. lia.
Qed.

Lemma split_row_truncate row n :
  n <= length (cells_of row) -> split_row row n = firstn n (cells_of row).
Proof.
  intros H. rewrite split_row_cells.
  replace (n - length (cells_of row)) with 0 by lia.
  now rewrite app_nil_r.
Qed.

(** C7 (padding and truncation).  Each data line gives the row at its
    place: its cells followed by as many N/A cells as are missing to reach
    3 when it has fewer than 3 cells, and its first 3 cells when it has more
    than 3; the line [| Item X | 3 |] gives Item X, 3, N/A. *)
Theorem C7_pad_and_truncate (s : str) (df : DataFrame) (k i : nat)
    (line : str) :
  markdown_table_to_csv s = Ok df ->
  data_start_idx_of (table_lines_of s) = Ok k ->
  nth_error (table_lines_of s) (k + i) = Some line ->
  nth_error (rows df) i = Some (split_row line 3)
  /\ (length (cells_of line) < 3 ->
      split_row line 3
      = cells_of line ++ repeat (lit "N/A") (3 - length (cells_of line)))
  /\ (3 < length (cells_of line) ->
      split_row line 3 = firstn 3 (cells_of line))
  /\ split_row (lit "| Item X | 3 |") 3 = [lit "Item X"; lit "3"; lit "N/A"].
Proof.
  unfold markdown_table_to_csv. intros H Hk Hline.
  split; [|split; [|split]].
  - destruct (table_lines_of s) as [|l0 [|l1 rest]];
      try (rewrite parse_table_lines_short in H by (simpl; lia);
           discriminate).
    rewrite data_start_idx_of_cons in Hk. injection Hk as <-.
    rewrite parse_table_lines_cons in H. unfold outcome in H.
    destruct (dash_only l1).
    + destruct rest as [|r rest']; [discriminate|].
      injection H as <-. simpl rows. simpl in Hline.
      apply (map_nth_error (fun row => split_row row 3)) in Hline.
      exact Hline.
    + injection H as <-. simpl rows. simpl in Hline.
      apply (map_nth_error (fun row => split_row row 3)) in Hline.
      exact Hline.
  - apply split_row_pad.
  - intros Hlen. apply split_row_truncate. lia.
  - reflexivity.
Qed.

Lemma C7_pad_and_truncate_witness :
  nth_error
    [[lit "Item X"; lit "3"; lit "N/A"]; [lit "a"; lit "b"; lit "c"]] 0
  = Some (split_row (lit "| Item X | 3 |") 3)
  /\ (length (cells_of (lit "| Item X | 3 |")) < 3 ->
      split_row (lit "| Item X | 3 |") 3
      = cells_of (lit "| Item X | 3 |")
        ++ repeat (lit "N/A") (3 - length (cells_of (lit "| Item X | 3 |"))))
  /\ (3 < length (cells_of (lit "| Item X | 3 |")) ->
      split_row (lit "| Item X | 3 |") 3
      = firstn 3 (cells_of (lit "| Item X | 3 |")))
  /\ split_row (lit "| Item X | 3 |") 3 = [lit "Item X"; lit "3"; lit "N/A"].
Proof.
  apply (C7_pad_and_truncate
           (text ["| Item | Qty | Unit |"; "|---|---|---|";
                  "| Item X | 3 |"; "| a | b | c | d | e |"]%string)
           (mkDataFrame expected_columns
              [[lit "Item X"; lit "3"; lit "N/A"];
               [lit "a"; lit "b"; lit "c"]])
           2 0 (lit "| Item X | 3 |")).
  - vm_compute. reflexivity.
  - vm_compute. reflexivity.
  - vm_compute. reflexivity.
Defined.

Lemma pipe_lines_no_newline s :
  Forall (fun l => ~ In newline l) (pipe_lines s).
Proof.
  unfold pipe_lines. apply Forall_forall. intros l Hl.
  apply filter_In in Hl as [Hl _].
  exact (proj1 (Forall_forall _ _) (split_pieces_no_sep newline s) l Hl).
Qed.

Lemma pipe_lines_idem s :
  pipe_lines (join newline (pipe_lines s)) = pipe_lines s.
Proof.
  rewrite pipe_lines_join by apply pipe_lines_no_newline.
  apply filter_all, filter_Forall.
Qed.

Lemma pipe_lines_join_pieces ls :
  pipe_lines (join newline ls)
  = filter pipe_leading (flat_map (split newline) ls).
Proof.
  unfold pipe_lines. destruct ls as [|l rest]; [reflexivity|].
  now rewrite split_join_pieces.
Qed.

Lemma pipe_lines_drop_noise before noise after :
  pipe_leading noise = false -> ~ In newline noise ->
  pipe_lines (join newline (before ++ noise :: after))
  = pipe_lines (join newline (before ++ after)).
Proof.
  intros Hn Hnl. rewrite !pipe_lines_join_pieces, !flat_map_app, !filter_app.
  simpl flat_map. rewrite filter_app, split_no_sep by assumption.
  simpl. now rewrite Hn.
Qed.

(** C8 (interleaved noise).  The result depends on the pipe-leading lines
    alone: it is the result on those lines by themselves, a line that is
    not pipe-leading can be taken out from anywhere without changing it,
    and the rows of a returned table are the normalized pipe-leading lines
    from some index on, in the order of the input. *)
Theorem C8_noise_dropped_order_kept (s : str) :
  markdown_table_to_csv s = markdown_table_to_csv (join newline (pipe_lines s))
  /\ (forall before noise after,
        s = join newline (before ++ noise :: after) ->
        pipe_leading noise = false -> ~ In newline noise ->
        markdown_table_to_csv s
        = markdown_table_to_csv (join newline (before ++ after)))
  /\ (forall df,
        markdown_table_to_csv s = Ok df ->
        exists k,
          1 <= k <= 2
          /\ rows df
             = map (fun l => split_row (strip l) 3) (skipn k (pipe_lines s))).
Proof.
  split; [|split].
  - now rewrite !markdown_table_to_csv_pipe_lines, pipe_lines_idem.
  - intros before noise after -> Hn Hnl.
    now rewrite !markdown_table_to_csv_pipe_lines, pipe_lines_drop_noise.
  - intros df. rewrite markdown_table_to_csv_pipe_lines. intros H.
    destruct (pipe_lines s) as [|l0 [|l1 rest]];
      try (rewrite parse_table_lines_short in H by (simpl; lia);
           discriminate).
    simpl map in H. rewrite parse_table_lines_cons in H.
    destruct (outcome_cases (strip l1) (map strip rest))
      as [[E _] | [k [Hk [_ [_ E]]]]]; rewrite E in H; [discriminate|].
    injection H as <-. exists (S k). split; [lia|]. simpl rows.
    change (strip l1 :: map strip rest) with (map strip (l1 :: rest)).
    rewrite skipn_map, map_map. reflexivity.
Qed.

Lemma C8_noise_dropped_order_kept_witness :
  markdown_table_to_csv
    (text ["Here is the table:"; "| H | Q | U |"; "some prose";
           "| A | 1 | m |"; ""; "| B | 2 | pcs |"]%string)
  = markdown_table_to_csv
      (join newline
         ([lit "Here is the table:"; lit "| H | Q | U |"]
          ++ [lit "| A | 1 | m |"; lit ""; lit "| B | 2 | pcs |"])).
Proof.
  apply (proj1 (proj2 (C8_noise_dropped_order_kept
           (text ["Here is the table:"; "| H | Q | U |"; "some prose";
                  "| A | 1 | m |"; ""; "| B | 2 | pcs |"]%string)))
           [lit "Here is the table:"; lit "| H | Q | U |"]
           (lit "some prose")
           [lit "| A | 1 | m |"; lit ""; lit "| B | 2 | pcs |"]).
  - reflexivity.
  - reflexivity.
  - vm_compute. intuition discriminate.
Defined.

Lemma parse_table_lines_with_short frame tl :
  length tl < 2 -> parse_table_lines_with frame tl = Raise MalformedTableError.
Proof.
  intros H. unfold parse_table_lines_with.
  apply Nat.ltb_lt in H. now rewrite H.
Qed.

Lemma parse_table_lines_with_cons frame l0 l1 rest :
  parse_table_lines_with frame (l0 :: l1 :: rest)
  = if dash_only l1 then
      match rest with
      | [] => Raise EmptyTableError
      | _ => frame (map (fun row => split_row row 3) rest) expected_columns
      end
    else frame (map (fun row => split_row row 3) (l1 :: rest))
           expected_columns.
Proof.
  unfold parse_table_lines_with.
  rewrite data_start_idx_of_cons.
  change (length (l0 :: l1 :: rest) <? 2) with false. cbv iota.
  change (index (l0 :: l1 :: rest) 0) with (Ok l0). cbv beta iota delta [bind].
  rewrite split_row_length. change (3 <? 3) with false. cbv iota.
  rewrite split_row_length.
  destruct (dash_only l1).
  - change (skipn 2 (l0 :: l1 :: rest)) with rest.
    destruct rest as [|r rest']; reflexivity.
  - reflexivity.
Qed.

Lemma markdown_table_to_csv_with_cases frame s :
  markdown_table_to_csv_with frame s = Raise MalformedTableError
  \/ markdown_table_to_csv_with frame s = Raise EmptyTableError
  \/ exists data_rows,
       data_rows <> []
       /\ Forall (fun r => length r = 3) data_rows
       /\ markdown_table_to_csv_with frame s
          = frame data_rows expected_columns.
Proof.
  assert (Hrows : forall ls : list str,
            Forall (fun r => length r = 3)
              (map (fun row => split_row row 3) ls)).
  { intros ls. apply Forall_forall. intros r Hr.
    apply in_map_iff in Hr as [row [<- _]]. apply split_row_length. }
  unfold markdown_table_to_csv_with. rewrite table_lines_pipe_lines.
  destruct (pipe_lines s) as [|l0 [|l1 rest]];
    try (left; apply parse_table_lines_with_short; simpl; lia).
  simpl map. rewrite parse_table_lines_with_cons.
  destruct (dash_only (strip l1)).
  - destruct (map strip rest) as [|r rest'] eqn:E; [right; now left|].
    right; right. eexists. split; [|split; [apply Hrows | reflexivity]].
    discriminate.
  - right; right. eexists. split; [|split; [apply Hrows | reflexivity]].
    discriminate.
Qed.

Lemma markdown_table_to_csv_with_pd_DataFrame s :
  markdown_table_to_csv_with pd_DataFrame s = markdown_table_to_csv s.
Proof. reflexivity. Qed.

(** With the constructor that does not look into the cells, the outcome is
    a table or one of the two errors. *)
Lemma outcomes_with_cells_as_objects (s : str) :
  (exists df, markdown_table_to_csv s = Ok df)
  \/ markdown_table_to_csv s = Raise MalformedTableError
  \/ markdown_table_to_csv s = Raise EmptyTableError.
Proof.
  rewrite markdown_table_to_csv_pipe_lines.
  destruct (pipe_lines s) as [|l0 [|l1 rest]];
    try (right; left; apply parse_table_lines_short; simpl; lia).
  simpl map. rewrite parse_table_lines_cons.
  destruct (outcome_cases (strip l1) (map strip rest))
    as [[E _] | [k [_ [_ [_ E]]]]]; rewrite E.
  - right. now right.
  - left. eexists. reflexivity.
Qed.

(** C9, as the specification words it, fails where the constructor of the
    data frame stores its strings as UTF-8 text: on a header, a separator
    and a row whose first cell holds a lone surrogate the constructor of
    line 56 raises [UnicodeEncodeError], which is neither a table nor one
    of the two errors of the parser. *)
Lemma C9_lone_surrogate_counterexample :
  markdown_table_to_csv_with pd_DataFrame_arrow
    (join newline
       [lit "| H | Q | U |"; lit "|---|---|---|";
        lit "| " ++ [55296%N] ++ lit " | 1 | m |"])
  = Raise UnicodeEncodeError
  /\ ~ ((exists df,
          markdown_table_to_csv_with pd_DataFrame_arrow
            (join newline
               [lit "| H | Q | U |"; lit "|---|---|---|";
                lit "| " ++ [55296%N] ++ lit " | 1 | m |"])
          = Ok df)
        \/ markdown_table_to_csv_with pd_DataFrame_arrow
             (join newline
                [lit "| H | Q | U |"; lit "|---|---|---|";
                 lit "| " ++ [55296%N] ++ lit " | 1 | m |"])
           = Raise MalformedTableError
        \/ markdown_table_to_csv_with pd_DataFrame_arrow
             (join newline
                [lit "| H | Q | U |"; lit "|---|---|---|";
                 lit "| " ++ [55296%N] ++ lit " | 1 | m |"])
           = Raise EmptyTableError).
Proof.
  assert (E : markdown_table_to_csv_with pd_DataFrame_arrow
                (join newline
                   [lit "| H | Q | U |"; lit "|---|---|---|";
                    lit "| " ++ [55296%N] ++ lit " | 1 | m |"])
              = Raise UnicodeEncodeError)
    by (vm_compute; reflexivity).
  split; [exact E|]. rewrite E.
  intros [[df H] | [H | H]]; discriminate.
Qed.

(** C9, amended.  The parser is a total function, and whatever the
    constructor of the data frame does, the outcome on every input is
    MalformedTableError, EmptyTableError, or the outcome of that
    constructor on a list of at least one row, each of 3 cells, and the
    fixed column names: the code of the parser itself raises nothing else,
    no index error among them, and a failure other than the two errors is
    an exception of the constructor. *)
Theorem C9_outcomes_up_to_constructor
    (frame : list (list str) -> list str -> result DataFrame) (s : str) :
  markdown_table_to_csv_with frame s = Raise MalformedTableError
  \/ markdown_table_to_csv_with frame s = Raise EmptyTableError
  \/ exists data_rows,
       data_rows <> []
       /\ Forall (fun r => length r = 3) data_rows
       /\ markdown_table_to_csv_with frame s
          = frame data_rows expected_columns.
Proof. apply markdown_table_to_csv_with_cases. Qed.



(** * Further properties of the parser *)

Section MoreStripLemmas.
Variable p : char -> bool.

Lemma lstrip_by_idem s : lstrip_by p (lstrip_by p s) = lstrip_by p s.
Proof.
  induction s as [|c t IH]; [reflexivity|]. simpl.
  destruct (p c) eqn:Hc; [assumption|]. simpl. now rewrite Hc.
Qed.

Lemma strip_by_idem s : strip_by p (strip_by p s) = strip_by p s.
Proof.
  unfold strip_by.
  now rewrite lstrip_rstrip_by, rstrip_by_idem, lstrip_by_idem.
Qed.

Lemma strip_by_snoc_drop s c :
  p c = true -> strip_by p (s ++ [c]) = strip_by p s.
Proof.
  intros Hc. unfold strip_by.
  now rewrite <- !lstrip_rstrip_by, rstrip_by_snoc_drop.
Qed.

Lemma strip_by_around pre s suf :
  forallb p pre = true -> forallb p suf = true ->
  strip_by p (pre ++ s ++ suf) = strip_by p s.
Proof.
  intros Hpre Hsuf. unfold strip_by.
  rewrite lstrip_by_app_all by assumption.
  now rewrite <- !lstrip_rstrip_by, rstrip_by_app_all.
Qed.

Lemma In_lstrip_by c s : In c (lstrip_by p s) -> In c s.
Proof.
  induction s as [|d t IH]; simpl; [auto|].
  destruct (p d); [auto | intros H; exact H].
Qed.

Lemma In_rstrip_by c s : In c (rstrip_by p s) -> In c s.
Proof.
  induction s as [|d t IH]; simpl; [auto|].
  destruct (rstrip_by p t) as [|e r].
  - destruct (p d); simpl; tauto.
  - intros [H|H]; [now left | right; now apply IH].
Qed.

Lemma In_strip_by c s : In c (strip_by p s) -> In c s.
Proof. intros H. now apply In_lstrip_by, In_rstrip_by. Qed.
End MoreStripLemmas.

Lemma In_split_piece sep s w c : In w (split sep s) -> In c w -> In c s.
Proof.
  revert w. induction s as [|d t IH]; simpl; intros w Hw Hc.
  - destruct Hw as [<-|[]]. destruct Hc.
  - destruct (d =? sep)%N.
    + destruct Hw as [<-|Hw]; [destruct Hc | right; eauto].
    + destruct (split sep t) as [|v vs].
      * destruct Hw as [<-|[]]. destruct Hc as [Hc|[]]. now left.
      * destruct Hw as [<-|Hw].
        -- destruct Hc as [Hc|Hc]; [now left | right].
           apply (IH v); [now left | assumption].
        -- right. apply (IH w); [now right | assumption].
Qed.

Lemma In_firstn {A} (x : A) n l : In x (firstn n l) -> In x l.
Proof.
  intros H. rewrite <- (firstn_skipn n l). apply in_or_app. now left.
Qed.

Lemma In_skipn {A} (x : A) n l : In x (skipn n l) -> In x l.
Proof.
  intros H. rewrite <- (firstn_skipn n l). apply in_or_app. now right.
Qed.

Lemma split_row_closed_form row n :
  split_row row n
  = firstn n (cells_of row) ++ repeat NA (n - length (cells_of row)).
Proof.
  rewrite split_row_cells, firstn_app. f_equal.
  apply firstn_all2. now rewrite repeat_length.
Qed.

Lemma split_row_cell row n cell :
  In cell (split_row row n) ->
  cell = NA
  \/ exists w, In w (split pipe (strip_chars [pipe] row)) /\ cell = strip w.
Proof.
  rewrite split_row_closed_form. intros H.
  apply in_app_or in H as [H|H].
  - right. apply In_firstn in H. unfold cells_of in H.
    apply in_map_iff in H as [w [<- Hw]]. now exists w.
  - left. now apply repeat_spec in H.
Qed.

Lemma pipe_leading_strip_eq a b :
  strip a = strip b -> pipe_leading a = pipe_leading b.
Proof. intros E. now rewrite <- !startswith_strip, E. Qed.

Lemma table_lines_strip_eq ls ls' :
  Forall2 (fun a b => strip a = strip b) ls ls' ->
  map strip (filter pipe_leading ls) = map strip (filter pipe_leading ls').
Proof.
  induction 1 as [|a b ls ls' E _ IH]; [reflexivity|]. simpl.
  rewrite <- (pipe_leading_strip_eq _ _ E).
  destruct (pipe_leading a); simpl; now rewrite ?E, IH.
Qed.


Lemma parse_pipe_lines_cons s l0 l1 rest :
  pipe_lines s = l0 :: l1 :: rest ->
  markdown_table_to_csv s = outcome (strip l1) (map strip rest).
Proof.
  intros E. rewrite markdown_table_to_csv_pipe_lines, E.
  apply parse_table_lines_cons.
Qed.

Lemma parse_ok_inv s df :
  markdown_table_to_csv s = Ok df ->
  exists l0 l1 rest,
    pipe_lines s = l0 :: l1 :: rest
    /\ outcome (strip l1) (map strip rest) = Ok df.
Proof.
  intros H. destruct (pipe_lines s) as [|l0 [|l1 rest]] eqn:E.
  - rewrite markdown_table_to_csv_pipe_lines, E in H. discriminate.
  - rewrite markdown_table_to_csv_pipe_lines, E in H. discriminate.
  - exists l0, l1, rest. split; [reflexivity|].
    now rewrite <- (parse_pipe_lines_cons _ _ _ _ E).
Qed.

(** X1 (surrounding whitespace).  Two texts whose lines agree once each
    line is stripped of the whitespace around it (indentation, trailing
    blanks, a carriage return before the line break) are parsed to the same
    result. *)
Theorem X1_surrounding_whitespace_ignored (ls ls' : list str) :
  Forall (fun l => ~ In newline l) ls ->
  Forall (fun l => ~ In newline l) ls' ->
  Forall2 (fun a b => strip a = strip b) ls ls' ->
  markdown_table_to_csv (join newline ls)
  = markdown_table_to_csv (join newline ls').
Proof.
  intros H H' E.
  rewrite !markdown_table_to_csv_pipe_lines, !pipe_lines_join by assumption.
  now rewrite (table_lines_strip_eq _ _ E).
Qed.

Lemma X1_surrounding_whitespace_ignored_witness :
  markdown_table_to_csv
    (join newline [lit "  | H | Q | U |  "; [9; 124; 45; 124; 13]%N;
                   lit " | A | 1 | m |"])
  = markdown_table_to_csv
      (join newline [lit "| H | Q | U |"; lit "|-|"; lit "| A | 1 | m |"]).
Proof.
  apply X1_surrounding_whitespace_ignored.
  - repeat constructor; vm_compute; intuition discriminate.
  - repeat constructor; vm_compute; intuition discriminate.
  - repeat constructor.
Defined.

(** X3 (cells).  In a returned table no cell holds a pipe or a line break,
    and no cell starts or ends with whitespace. *)
Theorem X3_cells_clean (s : str) (df : DataFrame) :
  markdown_table_to_csv s = Ok df ->
  Forall (Forall (fun cell =>
            ~ In pipe cell /\ ~ In newline cell /\ strip cell = cell))
         (rows df).
Proof.
  intros H. destruct (parse_ok_inv _ _ H) as [l0 [l1 [rest [E Ho]]]].
  assert (Hrow : forall line, In line (l1 :: rest) ->
            Forall (fun cell =>
              ~ In pipe cell /\ ~ In newline cell /\ strip cell = cell)
              (split_row (strip line) 3)).
  { intros line Hline. apply Forall_forall. intros cell Hcell.
    apply split_row_cell in Hcell as [-> | [w [Hw ->]]].
    - repeat split; try reflexivity; vm_compute; intuition discriminate.
    - repeat split.
      + intros Hp. apply In_strip_by in Hp.
        exact (proj1 (Forall_forall _ _) (split_pieces_no_sep pipe _) w Hw Hp).
      + intros Hn. apply In_strip_by in Hn.
        apply (In_split_piece _ _ _ _ Hw), In_strip_by, In_strip_by in Hn.
        assert (Hin : In line (pipe_lines s))
          by (rewrite E; now right).
        exact (proj1 (Forall_forall _ _) (pipe_lines_no_newline s)
                 line Hin Hn).
      + apply strip_by_idem. }
  destruct (outcome_cases (strip l1) (map strip rest))
    as [[E' _] | [k [_ [_ [_ E']]]]]; rewrite E' in Ho; [discriminate|].
  injection Ho as <-. simpl rows.
  apply Forall_forall. intros r Hr.
  apply in_map_iff in Hr as [line [<- Hline]].
  apply In_skipn in Hline.
  change (strip l1 :: map strip rest) with (map strip (l1 :: rest)) in Hline.
  apply in_map_iff in Hline as [raw [<- Hraw]]. now apply Hrow.
Qed.

Lemma X3_cells_clean_witness :
  Forall (Forall (fun cell =>
            ~ In pipe cell /\ ~ In newline cell /\ strip cell = cell))
         [[lit "A b"; lit ""; lit "N/A"]].
Proof.
  apply (X3_cells_clean
           (text ["| H |"; "|  A b  |   |"]%string)
           (mkDataFrame expected_columns [[lit "A b"; lit ""; lit "N/A"]])).
  vm_compute. reflexivity.
Defined.

(** X4 (row count).  A returned table is never empty: it has one row for
    each pipe-leading line after the first, the second left out when it
    passes the separator test. *)
Theorem X4_row_count (s : str) (df : DataFrame) :
  markdown_table_to_csv s = Ok df ->
  exists l0 l1 rest,
    pipe_lines s = l0 :: l1 :: rest
    /\ 1 <= length (rows df)
    /\ length (rows df)
       = if dash_only (strip l1) then length rest else S (length rest).
Proof.
  intros H. destruct (parse_ok_inv _ _ H) as [l0 [l1 [rest [E Ho]]]].
  exists l0, l1, rest. split; [assumption|].
  unfold outcome in Ho. destruct (dash_only (strip l1)).
  - destruct rest as [|r rest']; [discriminate|].
    injection Ho as <-. simpl. rewrite !length_map. split; [lia|reflexivity].
  - injection Ho as <-. simpl. rewrite !length_map. split; [lia|reflexivity].
Qed.

Lemma X4_row_count_witness :
  exists l0 l1 rest,
    pipe_lines (text ["| H |"; "|---|"; "| a |"; "| b |"]%string)
    = l0 :: l1 :: rest
    /\ 1 <= 2
    /\ 2 = if dash_only (strip l1) then length rest else S (length rest).
Proof.
  apply (X4_row_count
           (text ["| H |"; "|---|"; "| a |"; "| b |"]%string)
           (mkDataFrame expected_columns
              [[lit "a"; lit "N/A"; lit "N/A"];
               [lit "b"; lit "N/A"; lit "N/A"]])).
  vm_compute. reflexivity.
Defined.



(** X6 (header content).  What the first pipe-leading line of an input
    says has no effect: two inputs whose pipe-leading lines differ in the
    first one only have the same result, wherever the table stands in the
    text. *)
Theorem X6_header_content_ignored (s s' h h' : str) (ls : list str) :
  pipe_lines s = h :: ls ->
  pipe_lines s' = h' :: ls ->
  markdown_table_to_csv s = markdown_table_to_csv s'.
Proof.
  intros E E'. rewrite !markdown_table_to_csv_pipe_lines, E, E'.
  destruct ls as [|l1 rest].
  - rewrite !parse_table_lines_short by (simpl; lia). reflexivity.
  - simpl map. now rewrite !parse_table_lines_cons.
Qed.

Lemma X6_header_content_ignored_witness :
  markdown_table_to_csv
    (text ["Here is the take-off:"; "| Item Description | Quantity | Unit |";
           "| a | 1 | m |"]%string)
  = markdown_table_to_csv
      (text ["Some other prose"; ""; "| anything |"; "| a | 1 | m |";
             "Done."]%string).
Proof.
  apply (X6_header_content_ignored _ _
           (lit "| Item Description | Quantity | Unit |")
           (lit "| anything |") [lit "| a | 1 | m |"]);
    vm_compute; reflexivity.
Defined.

Lemma split_row_int_nonnegative row (n : nat) :
  split_row_int row (Z.of_nat n) = split_row row n.
Proof.
  unfold split_row_int, split_row, slice_to.
  replace (Z.of_nat n <? 0)%Z with false
    by (symmetry; apply Z.ltb_ge; lia).
  now rewrite Nat2Z.id.
Qed.

Lemma split_row_int_negative row (k : Z) :
  (k < 0)%Z ->
  split_row_int row k
  = firstn (length (cells_of row) - Z.to_nat (- k)) (cells_of row).
Proof.
  intros H. unfold split_row_int, slice_to.
  replace (k <? 0)%Z with true by (symmetry; apply Z.ltb_lt; lia).
  replace (Z.to_nat k) with 0 by lia.
  rewrite pad_loop_spec. simpl repeat. rewrite app_nil_r. reflexivity.
Qed.

(** X7 (cell count of [split_row]).  For every row and every number of
    columns that is not negative, as are the two the function is called
    with, [split_row] returns the first cells of the row up to that number
    followed by the N/A cells that are missing, which is exactly that
    number of cells; so line 39 never finds a header of fewer than 3
    cells.  (For a negative number the slice drops cells from the end
    instead: [split_row_int_negative].) *)
Theorem X7_split_row_exact (row : str) (expected_cols : Z) :
  (0 <= expected_cols)%Z ->
  split_row_int row expected_cols
  = firstn (Z.to_nat expected_cols) (cells_of row)
    ++ repeat (lit "N/A") (Z.to_nat expected_cols - length (cells_of row))
  /\ Z.of_nat (length (split_row_int row expected_cols)) = expected_cols
  /\ split_row_int row 3 = split_row row 3
  /\ (length (split_row row 3) <? 3) = false.
Proof.
  intros H. remember (Z.to_nat expected_cols) as n eqn:En.
  assert (E : expected_cols = Z.of_nat n) by lia.
  clear En. subst expected_cols.
  rewrite split_row_int_nonnegative.
  split; [apply split_row_closed_form|]. split; [|split].
  - now rewrite split_row_length.
  - apply (split_row_int_nonnegative row 3).
  - now rewrite split_row_length.
Qed.

Lemma X7_split_row_exact_witness :
  split_row_int (lit "| a | b |") 4
  = firstn (Z.to_nat 4) (cells_of (lit "| a | b |"))
    ++ repeat (lit "N/A") (Z.to_nat 4 - length (cells_of (lit "| a | b |")))
  /\ Z.of_nat (length (split_row_int (lit "| a | b |") 4)) = 4%Z
  /\ split_row_int (lit "| a | b |") 3 = split_row (lit "| a | b |") 3
  /\ (length (split_row (lit "| a | b |") 3) <? 3) = false.
Proof.
  apply (X7_split_row_exact (lit "| a | b |") 4). lia.
Defined.

(** X8 (pipes at the ends).  Any number of pipes put before or after a row
    leaves the cells of the row unchanged: a closing pipe may be left out
    or doubled. *)
Theorem X8_end_pipes_optional (a b : nat) (row : str) (expected_cols : nat) :
  cells_of (repeat pipe a ++ row ++ repeat pipe b) = cells_of row
  /\ split_row (repeat pipe a ++ row ++ repeat pipe b) expected_cols
     = split_row row expected_cols.
Proof.
  assert (E : strip_chars [pipe] (repeat pipe a ++ row ++ repeat pipe b)
              = strip_chars [pipe] row)
    by (apply strip_by_around; apply forallb_is_pipe_repeat).
  unfold split_row, cells_of. now rewrite E.
Qed.

(** X2 (line endings).  A text whose lines are joined by carriage return
    and line feed is parsed to the same result as the text whose lines are
    joined by line feeds alone. *)
Theorem X2_crlf_line_endings (ls : list str) :
  Forall (fun l => ~ In newline l) ls ->
  markdown_table_to_csv (join_str [carriage_return; newline] ls)
  = markdown_table_to_csv (join newline ls).
Proof.
  intros H. rewrite !markdown_table_to_csv_pipe_lines. f_equal.
  induction H as [|l rest Hl Hrest IH]; [reflexivity|].
  destruct rest as [|l' rest']; [reflexivity|].
  change (join_str [carriage_return; newline] (l :: l' :: rest'))
    with (l ++ carriage_return
            :: newline :: join_str [carriage_return; newline] (l' :: rest')).
  change (join newline (l :: l' :: rest'))
    with (l ++ newline :: join newline (l' :: rest')).
  change (l ++ carriage_return :: newline
            :: join_str [carriage_return; newline] (l' :: rest'))
    with (l ++ [carriage_return]
            ++ newline :: join_str [carriage_return; newline] (l' :: rest')).
  rewrite app_assoc. unfold pipe_lines in *.
  rewrite !split_app_sep, !filter_app, !map_app, IH. f_equal.
  rewrite !split_no_sep; [| assumption |].
  - apply table_lines_strip_eq. repeat constructor.
    now apply strip_by_snoc_drop.
  - intros Hin. apply in_app_or in Hin as [Hin | [Hin | []]];
      [now apply Hl | discriminate].
Qed.

Lemma X2_crlf_line_endings_witness :
  markdown_table_to_csv
    (join_str [carriage_return; newline]
       [lit "| H | Q | U |"; lit "|---|---|---|"; lit "| A | 1 | m |"])
  = markdown_table_to_csv
      (join newline
         [lit "| H | Q | U |"; lit "|---|---|---|"; lit "| A | 1 | m |"]).
Proof.
  apply X2_crlf_line_endings.
  repeat constructor; vm_compute; intuition discriminate.
Defined.

(** * Properties of the handler of the Send button *)

Lemma last_app_nonempty {A} (l l' : list A) d :
  l' <> [] -> last (l ++ l') d = last l' d.
Proof.
  intros H. induction l as [|a t IH]; [reflexivity|].
  simpl. destruct (t ++ l') eqn:E; [|assumption].
  apply app_eq_nil in E as [_ E]. contradiction.
Qed.

Lemma last_split_app_sep sep a b :
  last (split sep (a ++ sep :: b)) [] = last (split sep b) [].
Proof. rewrite split_app_sep. apply last_app_nonempty, split_not_nil. Qed.

Lemma last_map_str (f : str -> str) l :
  f [] = [] -> last (map f l) [] = f (last l []).
Proof.
  intros Hf. induction l as [|a t IH]; simpl; [now rewrite Hf|].
  destruct t; [reflexivity | exact IH].
Qed.

Lemma last_In_or_default {A} (l : list A) d : l <> [] -> In (last l d) l.
Proof.
  induction l as [|a t IH]; [congruence|]. intros _.
  destruct t as [|b t']; [now left|].
  right. apply IH. discriminate.
Qed.

Lemma ascii_lower_dot c : (ascii_lower c =? dot)%N = (c =? dot)%N.
Proof.
  unfold ascii_lower, dot.
  destruct ((65 <=? c) && (c <=? 90))%N eqn:E; [|reflexivity].
  apply andb_true_iff in E as [E1 E2].
  apply N.leb_le in E1. apply N.leb_le in E2.
  transitivity false; [apply N.eqb_neq | symmetry; apply N.eqb_neq]; lia.
Qed.

Lemma split_map_ascii_lower s :
  split dot (map ascii_lower s) = map (map ascii_lower) (split dot s).
Proof.
  induction s as [|c t IH]; [reflexivity|]. simpl.
  rewrite ascii_lower_dot, IH.
  destruct (c =? dot)%N; [reflexivity|].
  destruct (split dot t); reflexivity.
Qed.

Lemma last_piece_is_ascii s :
  forallb is_ascii s = true ->
  forallb is_ascii (last (split dot s) []) = true.
Proof.
  intros H. apply forallb_forall. intros c Hc.
  apply (proj1 (forallb_forall _ _) H).
  apply (In_split_piece dot s (last (split dot s) [])); [|assumption].
  apply last_In_or_default, split_not_nil.
Qed.

Section ScriptProperties.
Variable unicode_lower : str -> str.
Variable b64encode : list N -> str.
Variable open_image : str -> list N + string.
Variable chat_completion : str -> message -> str + string.
Variable frame : list (list str) -> list str -> result DataFrame.
Variable to_csv : DataFrame -> list N + string.
Variable encode_error_text : str -> str.

Lemma lower_last_piece s :
  forallb is_ascii s = true ->
  lower unicode_lower (last (split dot s) [])
  = last (split dot (map ascii_lower s)) [].
Proof.
  intros H. unfold lower. rewrite (last_piece_is_ascii _ H).
  now rewrite split_map_ascii_lower, last_map_str.
Qed.

(** X9 (what counts as the extension).  Whether a file is refused depends
    only on what follows the last dot of its name: a name and its
    extension alone are treated alike, and a name that ends with a dot is
    refused. *)
Theorem X9_extension_after_last_dot (base ext : str) :
  ~ In dot ext ->
  unsupported unicode_lower (base ++ dot :: ext)
  = unsupported unicode_lower ext
  /\ unsupported unicode_lower (base ++ [dot]) = true.
Proof.
  intros H. unfold unsupported. rewrite !last_split_app_sep.
  now rewrite (split_no_sep _ _ H).
Qed.

(** X10 (letter case).  Two names of ASCII characters that differ only in
    the case of their letters are both accepted or both refused. *)
Theorem X10_extension_case_insensitive (n1 n2 : str) :
  forallb is_ascii n1 = true ->
  forallb is_ascii n2 = true ->
  map ascii_lower n1 = map ascii_lower n2 ->
  unsupported unicode_lower n1 = unsupported unicode_lower n2.
Proof.
  intros H1 H2 E. unfold unsupported.
  now rewrite !lower_last_piece, E by assumption.
Qed.

Lemma add_images_closed_form img_input images content :
  add_images unicode_lower b64encode img_input images content
  = if existsb (fun img => unsupported unicode_lower (name img)) img_input
    then Stop (lit "Only .jpg, .png, .gif, or .webp are supported")
    else Continue
           (images ++ img_input,
            content
            ++ map (fun img =>
                      ImageUrlItem
                        (lit "data:image/jpeg;base64," ++ b64encode (data img))
                        (lit "high"))
                 img_input).
Proof.
  revert images content.
  induction img_input as [|img rest IH]; intros images content.
  - simpl. now rewrite !app_nil_r.
  - simpl. destruct (unsupported unicode_lower (name img)); [reflexivity|].
    rewrite IH. simpl. now rewrite <- !app_assoc.
Qed.

Lemma build_message_Continue api_key img_input images msg :
  build_message unicode_lower b64encode api_key img_input
  = Continue (images, msg) ->
  api_key <> []
  /\ existsb (fun img => unsupported unicode_lower (name img)) img_input
     = false
  /\ images = img_input
  /\ msg
     = mkMessage (lit "user")
         (TextItem prompt
          :: map (fun img =>
                    ImageUrlItem
                      (lit "data:image/jpeg;base64," ++ b64encode (data img))
                      (lit "high"))
               img_input).
Proof.
  unfold build_message. destruct api_key as [|c k]; [discriminate|].
  rewrite add_images_closed_form.
  destruct (existsb _ img_input); [discriminate|].
  intros H. injection H as <- <-. repeat split. discriminate.
Qed.

(** X11 (the request).  With an empty API key the script stops with the
    warning of the key, whatever was uploaded; otherwise it stops with the
    warning of the file types if some uploaded file is refused, and in
    every other case the message holds the prompt followed by one image
    item for each uploaded file, in the order of the upload. *)
Theorem X11_build_message_closed_form (api_key : str)
    (img_input : list UploadedFile) :
  build_message unicode_lower b64encode api_key img_input
  = match api_key with
    | [] => Stop (lit "API Key required")
    | _ =>
        if existsb (fun img => unsupported unicode_lower (name img)) img_input
        then Stop (lit "Only .jpg, .png, .gif, or .webp are supported")
        else Continue
               (img_input,
                mkMessage (lit "user")
                  (TextItem prompt
                   :: map (fun img =>
                             ImageUrlItem
                               (lit "data:image/jpeg;base64,"
                                ++ b64encode (data img))
                               (lit "high"))
                        img_input))
    end.
Proof.
  unfold build_message. destruct api_key as [|c k]; [reflexivity|].
  rewrite add_images_closed_form.
  destruct (existsb _ img_input); reflexivity.
Qed.

Lemma skipn_data_url e :
  skipn 23 (lit "data:image/jpeg;base64," ++ e) = e.
Proof. reflexivity. Qed.

Lemma echo_images_open img_input ims :
  Forall2 (fun img im => open_image (b64encode (data img)) = inl im)
    img_input ims ->
  echo open_image
    (map (fun img =>
            ImageUrlItem
              (lit "data:image/jpeg;base64," ++ b64encode (data img))
              (lit "high"))
       img_input)
  = (map (fun im => StExpander (lit "Attached Image") [StImage im]) ims,
     None).
Proof.
  induction 1 as [|img im imgs ims Hopen _ IH]; [reflexivity|].
  cbn [map echo]. rewrite skipn_data_url, Hopen, IH. reflexivity.
Qed.

Lemma echo_images_fail before img after ims e :
  Forall2 (fun img im => open_image (b64encode (data img)) = inl im)
    before ims ->
  open_image (b64encode (data img)) = inr e ->
  echo open_image
    (map (fun img =>
            ImageUrlItem
              (lit "data:image/jpeg;base64," ++ b64encode (data img))
              (lit "high"))
       (before ++ img :: after))
  = (map (fun im => StExpander (lit "Attached Image") [StImage im]) ims
     ++ [StExpander (lit "Attached Image") []],
     Some e).
Proof.
  intros H He. induction H as [|img' im imgs ims Hopen _ IH].
  - cbn [app map echo]. now rewrite skipn_data_url, He.
  - cbn [app map echo]. rewrite skipn_data_url, Hopen.
    cbn [app map] in IH. rewrite IH. reflexivity.
Qed.

(** X12 (the images shown back).  For a message that was built, the loop
    of lines 116-122 opens, for each uploaded file in order, exactly the
    base64 text of that file: the 23 characters cut from each URL are the
    prefix put before it.  When every image opens, it shows the prompt and
    then the images in the order of the upload; at the first image that
    does not open it ends with the exception raised there, after the
    images before it. *)
Theorem X12_echo_recovers_base64 (api_key : str)
    (img_input images : list UploadedFile) (msg : message) :
  build_message unicode_lower b64encode api_key img_input
  = Continue (images, msg) ->
  (forall ims,
     Forall2 (fun img im => open_image (b64encode (data img)) = inl im)
       img_input ims ->
     echo open_image (content msg)
     = (StWrite prompt
        :: map (fun im => StExpander (lit "Attached Image") [StImage im]) ims,
        None))
  /\ (forall before img after ims e,
        img_input = before ++ img :: after ->
        Forall2 (fun img im => open_image (b64encode (data img)) = inl im)
          before ims ->
        open_image (b64encode (data img)) = inr e ->
        echo open_image (content msg)
        = (StWrite prompt
           :: map (fun im => StExpander (lit "Attached Image") [StImage im])
                ims
              ++ [StExpander (lit "Attached Image") []],
           Some e)).
Proof.
  intros H. apply build_message_Continue in H as [_ [_ [_ ->]]].
  split.
  - intros ims Hopen. cbn [content echo].
    now rewrite (echo_images_open _ _ Hopen).
  - intros before img after ims e -> Hopen He. cbn [content echo].
    now rewrite (echo_images_fail _ _ after _ _ Hopen He).
Qed.

Lemma show_response_cases r :
  (snd (show_response frame to_csv encode_error_text r) = Completed
   /\ exists df csv,
        markdown_table_to_csv_with frame r = Ok df /\ to_csv df = inl csv)
  \/ (snd (show_response frame to_csv encode_error_text r) = Stopped
      /\ forall df csv,
           markdown_table_to_csv_with frame r = Ok df -> to_csv df <> inl csv)
  \/ (exists e data_rows,
        snd (show_response frame to_csv encode_error_text r) = Uncaught e
        /\ frame data_rows expected_columns = Raise e
        /\ forall df, markdown_table_to_csv_with frame r <> Ok df).
Proof.
  unfold show_response.
  destruct (markdown_table_to_csv_with_cases frame r)
    as [E | [E | [data_rows [_ [_ E]]]]]; rewrite E.
  - right; left. split; [reflexivity | discriminate].
  - right; left. split; [reflexivity | discriminate].
  - destruct (frame data_rows expected_columns) as [df | [m | | ]] eqn:Ef.
    + simpl. destruct (to_csv df) as [csv | m] eqn:Ec.
      * left. split; [reflexivity|]. now exists df, csv.
      * right; left. split; [reflexivity|].
        intros df' csv H. injection H as <-. rewrite Ec. discriminate.
    + right; left. split; [reflexivity | discriminate].
    + right; right. exists IndexError, data_rows.
      repeat split; [assumption | discriminate].
    + right; left. split; [reflexivity | discriminate].
Qed.

(** X13 (how a run ends).  A run ends with an exception of the parser that
    nothing catches only if the constructor of the data frame raised it:
    the code of the parser raises none.  It ends with the exception of a
    library call exactly when the message was built and the client of the
    API or the opening of an image raised it.  It reaches the end of the
    script exactly when the message was built, the client returned a
    response, every image opened, and the response is empty or is parsed
    to a table that is written as CSV. *)
Theorem X13_on_send_endings (api_key : str) (img_input : list UploadedFile) :
  (forall e,
     ending (on_send unicode_lower b64encode open_image chat_completion
               frame to_csv encode_error_text api_key img_input)
     = Uncaught e ->
     exists data_rows, frame data_rows expected_columns = Raise e)
  /\ (forall what,
        ending (on_send unicode_lower b64encode open_image chat_completion
                  frame to_csv encode_error_text api_key img_input)
        = Crashed what
        <-> exists images msg,
              build_message unicode_lower b64encode api_key img_input
              = Continue (images, msg)
              /\ (chat_completion api_key msg = inr what
                  \/ exists r echoed,
                       chat_completion api_key msg = inl r
                       /\ echo open_image (content msg)
                          = (echoed, Some what)))
  /\ (ending (on_send unicode_lower b64encode open_image chat_completion
                frame to_csv encode_error_text api_key img_input)
      = Completed
      <-> exists images msg r echoed,
            build_message unicode_lower b64encode api_key img_input
            = Continue (images, msg)
            /\ chat_completion api_key msg = inl r
            /\ echo open_image (content msg) = (echoed, None)
            /\ (r = []
                \/ exists df csv,
                     markdown_table_to_csv_with frame r = Ok df
                     /\ to_csv df = inl csv)).
Proof.
  unfold on_send.
  destruct (build_message unicode_lower b64encode api_key img_input)
    as [[images msg] | warning].
  2:{ simpl. repeat split; try discriminate.
      - intros [? [? [E _]]]. discriminate.
      - intros [? [? [? [? [E _]]]]]. discriminate. }
  destruct (chat_completion api_key msg) as [r | what0] eqn:Er.
  2:{ simpl. repeat split; try discriminate.
      - intros H. injection H as <-. exists images, msg.
        split; [reflexivity | now left].
      - intros [? [? [E [H | [? [? [H _]]]]]]];
          injection E as <- <-; rewrite Er in H; congruence.
      - intros [? [? [? [? [E [H _]]]]]].
        injection E as <- <-. rewrite Er in H. discriminate. }
  destruct (echo open_image (content msg)) as [echoed [what0|]] eqn:Ee.
  { simpl. repeat split; try discriminate.
    - intros H. injection H as <-. exists images, msg.
      split; [reflexivity|]. right. exists r, echoed. now rewrite Er.
    - intros [? [? [E [H | [? [? [_ H]]]]]]];
        injection E as <- <-; [rewrite Er in H; discriminate|].
      rewrite Ee in H. congruence.
    - intros [? [? [? [? [E [_ [H _]]]]]]].
      injection E as <- <-. rewrite Ee in H. discriminate. }
  assert (Hno : forall what,
            ~ (exists images' msg',
                 Continue (images, msg) = Continue (images', msg')
                 /\ (chat_completion api_key msg' = inr what
                     \/ exists r' echoed',
                          chat_completion api_key msg' = inl r'
                          /\ echo open_image (content msg')
                             = (echoed', Some what)))).
  { intros what [? [? [E [H | [? [? [_ H]]]]]]];
      injection E as <- <-; [rewrite Er in H | rewrite Ee in H];
      discriminate. }
  destruct r as [|c r'].
  { simpl. repeat split; try discriminate.
    - intros H. exfalso. exact (Hno _ H).
    - intros _. exists images, msg, [], echoed. rewrite Er. auto. }
  destruct (show_response_cases (c :: r'))
    as [[He [df [csv [Hp Hc]]]] | [[He Hp] | [e [data_rows [He [Hf Hp]]]]]];
    destruct (show_response frame to_csv encode_error_text (c :: r'))
      as [inside fin]; simpl in He; subst fin; simpl.
  - repeat split; try discriminate.
    + intros H. exfalso. exact (Hno _ H).
    + intros _. exists images, msg, (c :: r'), echoed. rewrite Er.
      split; [reflexivity|]. split; [reflexivity|]. split; [exact Ee|].
      right. now exists df, csv.
  - repeat split; try discriminate.
    + intros H. exfalso. exact (Hno _ H).
    + intros [? [? [? [? [E [H [_ [H' | [df [csv [H1 H2]]]]]]]]]]];
        injection E as <- <-; rewrite Er in H; injection H as <-;
        [discriminate | destruct (Hp _ _ H1 H2)].
  - repeat split; try discriminate.
    + intros e' H. injection H as <-. now exists data_rows.
    + intros H. exfalso. exact (Hno _ H).
    + intros [? [? [? [? [E [H [_ [H' | [df [csv [H1 _]]]]]]]]]]];
        injection E as <- <-; rewrite Er in H; injection H as <-;
        [discriminate | destruct (Hp _ H1)].
Qed.
End ScriptProperties.

Lemma X9_extension_after_last_dot_witness :
  unsupported (fun s => s) (lit "plan.final" ++ dot :: lit "PNG")
  = unsupported (fun s => s) (lit "PNG")
  /\ unsupported (fun s => s) (lit "plan.final" ++ [dot]) = true.
Proof.
  apply (X9_extension_after_last_dot (fun s => s) (lit "plan.final")
           (lit "PNG")).
  vm_compute. intuition discriminate.
Defined.

Lemma X10_extension_case_insensitive_witness :
  unsupported (fun s => s) (lit "Plan.JPeG")
  = unsupported (fun s => s) (lit "plan.jpeg").
Proof.
  apply (X10_extension_case_insensitive (fun s => s)
           (lit "Plan.JPeG") (lit "plan.jpeg")); reflexivity.
Defined.

Lemma X12_echo_recovers_base64_witness :
  (forall ims,
     Forall2 (fun img im => inl (data img) = inl im :> list N + string)
       [mkUploadedFile (lit "a.png") [7; 8; 9]%N] ims ->
     echo (fun s => inl s)
       [TextItem prompt;
        ImageUrlItem (lit "data:image/jpeg;base64," ++ [7; 8; 9]%N)
          (lit "high")]
     = (StWrite prompt
        :: map (fun im => StExpander (lit "Attached Image") [StImage im]) ims,
        None))
  /\ (forall before img after ims e,
        [mkUploadedFile (lit "a.png") [7; 8; 9]%N] = before ++ img :: after ->
        Forall2 (fun img im => inl (data img) = inl im :> list N + string)
          before ims ->
        inl (data img) = inr e ->
        echo (fun s => inl s)
          [TextItem prompt;
           ImageUrlItem (lit "data:image/jpeg;base64," ++ [7; 8; 9]%N)
             (lit "high")]
        = (StWrite prompt
           :: map (fun im => StExpander (lit "Attached Image") [StImage im])
                ims
              ++ [StExpander (lit "Attached Image") []],
           Some e)).
Proof.
  apply (X12_echo_recovers_base64 (fun s => s) (fun b => b) (fun s => inl s)
           (lit "key") [mkUploadedFile (lit "a.png") [7; 8; 9]%N]
           [mkUploadedFile (lit "a.png") [7; 8; 9]%N]
           (mkMessage (lit "user")
              [TextItem prompt;
               ImageUrlItem (lit "data:image/jpeg;base64," ++ [7; 8; 9]%N)
                 (lit "high")])).
  vm_compute. reflexivity.
Defined.

Lemma X13_on_send_endings_witness :
  ending
    (on_send (fun s => s) (fun b => b) (fun s => inl s)
       (fun _ _ => inl (text ["| H |"; "|---|"; "| a | 1 | m |"]%string))
       pd_DataFrame (fun _ => inl []) (fun s => s)
       (lit "key") [mkUploadedFile (lit "a.png") [7; 8; 9]%N])
  = Completed.
Proof.
  apply (proj2 (proj2 (proj2
           (X13_on_send_endings (fun s => s) (fun b => b) (fun s => inl s)
              (fun _ _ => inl (text ["| H |"; "|---|"; "| a | 1 | m |"]%string))
              pd_DataFrame (fun _ => inl []) (fun s => s)
              (lit "key") [mkUploadedFile (lit "a.png") [7; 8; 9]%N])))).
  exists [mkUploadedFile (lit "a.png") [7; 8; 9]%N].
  exists (mkMessage (lit "user")
            [TextItem prompt;
             ImageUrlItem (lit "data:image/jpeg;base64," ++ [7; 8; 9]%N)
               (lit "high")]).
  exists (text ["| H |"; "|---|"; "| a | 1 | m |"]%string).
  exists [StWrite prompt;
          StExpander (lit "Attached Image") [StImage [7; 8; 9]%N]].
  split; [vm_compute; reflexivity|].
  split; [reflexivity|].
  split; [vm_compute; reflexivity|].
  right.
  exists (mkDataFrame expected_columns [[lit "a"; lit "1"; lit "m"]]), [].
  split; [vm_compute; reflexivity | reflexivity].
Defined.

(** * The separator test, character by character *)



